(** * Steering-vector extraction: scripts/fetch_steering_vectors.py

    A shallow embedding of [encode_sequences], [fetch_steering_vector] and the
    [__main__] block of scripts/fetch_steering_vectors.py.

    Modelling choices:
    - Python exceptions are values of [exc]; the script's own [assert]
      statements carry their source line.  Exceptions raised inside the
      third-party collaborators (the HuggingFace tokenizer, the BERT model)
      are opaque: those functions return [option], and [None] becomes
      [TokenizerException] or [ModelException].
    - Observable effects (opening a FASTA file, a forward pass of the model,
      printing, argument parsing, loading, saving) are recorded in an
      append-only trace: the code runs in a writer monad with exceptions.
    - torch/numpy arrays are a shape together with a flat row-major list of
      elements.  Token ids are [Z]; activations are exact rationals [Q]
      (float rounding is abstracted away).
    - [str.lower] is modelled on ASCII strings. *)

From Stdlib Require Import List String Ascii ZArith QArith Lia.
Import ListNotations.
Open Scope string_scope.
Open Scope list_scope.
Open Scope nat_scope.

(** ** Python values and exceptions *)

Inductive exc :=
| ValueError (msg : string)
| AssertionError (line : nat)
| UnboundLocalError (name : string)
| NameError (name : string)
| FileNotFoundError (path : string)
| KeyError (key : string)
| IndexError
| RuntimeError (msg : string)
| TypeError (msg : string)
| SystemExit (code : nat)
| TokenizerException
| ModelException.

Inductive event :=
| ev_open (path : string)              (* SeqIO.parse opens a file *)
| ev_print (msg : string)
| ev_forward (batch_rows : nat)        (* one forward pass of the model *)
| ev_new_parser                        (* argparse.ArgumentParser() *)
| ev_add_argument (flag : string)
| ev_parse_args
| ev_load_model (path : string)
| ev_makedirs (path : string)
| ev_save (path : string).

(** The writer monad with exceptions: a result and the effects performed. *)
Definition M (A : Type) : Type := ((exc + A) * list event)%type.

Definition ret {A} (a : A) : M A := (inr a, []).
Definition raise {A} (e : exc) : M A := (inl e, []).
Definition emit (e : event) : M unit := (inr tt, [e]).
Definition bind {A B} (m : M A) (f : A -> M B) : M B :=
  match m with
  | (inl e, w) => (inl e, w)
  | (inr a, w) => let (r, w') := f a in (r, w ++ w')
  end.
Definition lift {A} (r : exc + A) : M A := (r, []).

Notation "x <- m ;; k" := (bind m (fun x => k))
  (at level 61, m at next level, right associativity).
Notation "m ;;; k" := (bind m (fun _ => k))
  (at level 61, right associativity).

(** Python [assert cond] at a given line. *)
Definition py_assert (line : nat) (b : bool) : M unit :=
  if b then ret tt else raise (AssertionError line).

Fixpoint mapM {A B} (f : A -> M B) (xs : list A) : M (list B) :=
  match xs with
  | [] => ret []
  | x :: xs' => y <- f x ;; ys <- mapM f xs' ;; ret (y :: ys)
  end.

(** [str.lower] on ASCII. *)
Definition lower_ascii (c : ascii) : ascii :=
  let n := nat_of_ascii c in
  if ((65 <=? n) && (n <=? 90))%nat then ascii_of_nat (n + 32)%nat else c.

Fixpoint py_lower (s : string) : string :=
  match s with
  | EmptyString => EmptyString
  | String c s' => String (lower_ascii c) (py_lower s')
  end.

(** [sep.join(xs)] *)
Fixpoint py_join (sep : string) (xs : list string) : string :=
  match xs with
  | [] => ""
  | [x] => x
  | x :: xs' => (x ++ sep ++ py_join sep xs')%string
  end.

(** ** Arrays (torch tensors and numpy arrays) *)

Record ndarray (A : Type) := mk_nd { shape : list nat; data : list A }.
Arguments mk_nd {A}.
Arguments shape {A}.
Arguments data {A}.

Definition numel (s : list nat) : nat := fold_right Nat.mul 1 s.

(** [t.size(k)] *)
Definition size {A} (t : ndarray A) (k : nat) : exc + nat :=
  match nth_error (shape t) k with Some d => inr d | None => inl IndexError end.

(** [t[i:j]] along the first dimension (Python slice bounds are clamped). *)
Definition slice0 {A} (t : ndarray A) (i j : nat) : ndarray A :=
  match shape t with
  | [] => t
  | n :: rest =>
      let hi := Nat.min j n in
      let lo := Nat.min i hi in
      let rs := numel rest in
      mk_nd ((hi - lo) :: rest) (firstn ((hi - lo) * rs) (skipn (lo * rs) (data t)))
  end.

(** [torch.stack(ts, dim=0)] *)
Definition stack0 {A} (ts : list (ndarray A)) : exc + ndarray A :=
  match ts with
  | [] => inl (RuntimeError "stack expects a non-empty TensorList")
  | t :: _ =>
      if forallb (fun u => if list_eq_dec Nat.eq_dec (shape u) (shape t) then true else false) ts
      then inr (mk_nd (List.length ts :: shape t) (List.concat (map data ts)))
      else inl (RuntimeError "stack expects each tensor to be equal size")
  end.

(** The [j]-th block of [k] consecutive elements. *)
Definition block {A} (k j : nat) (xs : list A) : list A := firstn k (skipn (j * k) xs).

(** [torch.cat(ts, dim=1)]: all shapes agree except in dimension 1. *)
Definition cat1 {A} (ts : list (ndarray A)) : exc + ndarray A :=
  match ts with
  | [] => inl (RuntimeError "cat expects a non-empty TensorList")
  | t :: _ =>
      match shape t with
      | a :: _ :: rest =>
          if forallb (fun u => match shape u with
                               | a' :: _ :: rest' =>
                                   Nat.eqb a' a &&
                                   (if list_eq_dec Nat.eq_dec rest' rest then true else false)
                               | _ => false end) ts
          then
            let dim1 u := nth 1 (shape u) 0 in
            inr (mk_nd (a :: fold_right Nat.add 0 (map dim1 ts) :: rest)
                   (List.concat (map (fun j =>
                      List.concat (map (fun u => block (dim1 u * numel rest) j (data u)) ts))
                      (seq 0 a))))
          else inl (RuntimeError "Sizes of tensors must match except in dimension 1")
      | _ => inl IndexError
      end
  end.

(** Elementwise sum of [b] consecutive blocks of length [k]. *)
Fixpoint sum_blocks (k b : nat) (xs : list Q) : list Q :=
  match b with
  | O => repeat 0%Q k
  | S b' => map (fun p => Qplus (fst p) (snd p))
                (combine (firstn k xs) (sum_blocks k b' (skipn k xs)))
  end.

(** [arr.mean(axis=1, keepdims=True)].  An empty axis (which numpy turns into
    NaN) does not arise: every batch holds at least one sequence. *)
Definition mean1 (t : ndarray Q) : exc + ndarray Q :=
  match shape t with
  | a :: b :: rest =>
      let k := numel rest in
      inr (mk_nd (a :: 1 :: rest)
             (List.concat (map (fun j =>
                map (fun x => Qdiv x (inject_Z (Z.of_nat b))) (sum_blocks k b (block (b * k) j (data t))))
                (seq 0 a))))
  | _ => inl IndexError
  end.

(** [x - y] on arrays of equal shape (numpy broadcasting of unequal shapes
    is not modelled; both operands here always come from the same model). *)
Definition nd_sub (x y : ndarray Q) : exc + ndarray Q :=
  if list_eq_dec Nat.eq_dec (shape x) (shape y)
  then inr (mk_nd (shape x) (map (fun p => Qminus (fst p) (snd p)) (combine (data x) (data y))))
  else inl (ValueError "operands could not be broadcast together").

(** Unary [- x]. *)
Definition nd_neg (x : ndarray Q) : ndarray Q := mk_nd (shape x) (map Qopp (data x)).

(** ** Collaborators *)

(** A FASTA record as produced by [SeqIO.parse]. *)
Record fasta_record := mk_record { rec_id : string; rec_seq : string }.

(** The files [SeqIO.parse(path, "fasta")] can read, already parsed. *)
Definition Filesystem := string -> option (list fasta_record).

(** [mytok(seq, k, s)], imported from the CodonBERT tokenizer utilities
    (not part of this repository). *)
Definition Mytok := string -> nat -> nat -> list string.

(** [tokenizer(texts, padding="max_length", truncation=True,
    max_length=m, return_tensors='pt').input_ids]; [None] when the
    tokenizer raises. *)
Definition Tokenizer := list string -> nat -> option (ndarray Z).

(** [model(ids, output_hidden_states=True, return_dict=True).hidden_states]
    in evaluation mode without gradients; [None] when the model raises. *)
Definition Model := ndarray Z -> option (list (ndarray Q)).

(** ** The score table of the percentile modes *)

Record row := mk_row { row_ID : string; row_cols : list (string * Q) }.
Definition table := list row.

Definition dict := list (string * string).

Fixpoint assoc {V} (k : string) (xs : list (string * V)) : option V :=
  match xs with
  | [] => None
  | (k', v) :: xs' => if String.eqb k k' then Some v else assoc k xs'
  end.

(** [df[c]] for one row. *)
Definition col (c : string) (r : row) : exc + Q :=
  match assoc c (row_cols r) with Some v => inr v | None => inl (KeyError c) end.

Fixpoint mapE {A B} (f : A -> exc + B) (xs : list A) : exc + list B :=
  match xs with
  | [] => inr []
  | x :: xs' =>
      match f x with
      | inl e => inl e
      | inr y => match mapE f xs' with inl e => inl e | inr ys => inr (y :: ys) end
      end
  end.

(** [df[c] = <per-row expression>] *)
Definition set_col (c : string) (f : row -> exc + Q) (df : table) : exc + table :=
  mapE (fun r => match f r with
                 | inl e => inl e
                 | inr v => inr (mk_row (row_ID r) ((c, v) :: row_cols r))
                 end) df.

(** [sequences[x]] *)
Definition dict_get (sequences : option dict) (x : string) : exc + string :=
  match sequences with
  | None => inl (TypeError "'NoneType' object is not subscriptable")
  | Some d => match assoc x d with Some s => inr s | None => inl (KeyError x) end
  end.

(** [int(x)] for a float: truncation towards zero. *)
Definition py_int (x : Q) : Z := Z.quot (Qnum x) (Zpos (Qden x)).

(** Stable insertion by key: [before k k'] says [k] stays before [k']. *)
Fixpoint insert_by {A} (before : Q -> Q -> bool) (p : Q * A) (xs : list (Q * A)) :=
  match xs with
  | [] => [p]
  | x :: xs' => if before (fst x) (fst p) then x :: insert_by before p xs' else p :: xs
  end.

Definition sort_by {A} (before : Q -> Q -> bool) (xs : list (Q * A)) : list (Q * A) :=
  fold_left (fun acc p => insert_by before p acc) xs [].

(** [df.nlargest(n, c)] and [df.nsmallest(n, c)] with [keep='first']. *)
Definition nlargest (n : nat) (c : string) (df : table) : exc + table :=
  match mapE (fun r => match col c r with inl e => inl e | inr v => inr (v, r) end) df with
  | inl e => inl e
  | inr keyed => inr (map snd (firstn n (sort_by (fun k k' => Qle_bool k' k) keyed)))
  end.

Definition nsmallest (n : nat) (c : string) (df : table) : exc + table :=
  match mapE (fun r => match col c r with inl e => inl e | inr v => inr (v, r) end) df with
  | inl e => inl e
  | inr keyed => inr (map snd (firstn n (sort_by (fun k k' => Qle_bool k k') keyed)))
  end.

(** ** [encode_sequences] and [fetch_steering_vector] *)

(** The keyword arguments of [fetch_steering_vector] other than the model,
    the tokenizer and the device ([.to(device)] does not change a tensor). *)
Record fsv_args := mk_args {
  data_type : string;
  sequences : option dict;
  percent : option Q;
  min_seq_len : nat;
  max_seq_len : nat;
  lambda_ : option Q;
  high_fa_path : option string;
  low_fa_path : option string }.

(** The source's defaults for everything but [data_type]. *)
Definition default_args (dt : string) : fsv_args :=
  mk_args dt None None 300 (3072 - 6) None None None.

(** The same call with [high_fa_path] and [low_fa_path] exchanged. *)
Definition swap_fa_paths (a : fsv_args) : fsv_args :=
  mk_args (data_type a) (sequences a) (percent a) (min_seq_len a) (max_seq_len a)
          (lambda_ a) (low_fa_path a) (high_fa_path a).

(** What the validation chain (lines 33-48) leaves for the selection. *)
Inductive source :=
| src_fasta (high_fa low_fa : list fasta_record)
| src_table (value_col : string) (df : option table).

(** [df] is a local variable of [fetch_steering_vector] (line 58 assigns
    it), and no statement binds it before lines 42 and 57 read it. *)
Definition df_at_entry : option table := None.

Definition read_local {A} (name : string) (v : option A) : M A :=
  match v with Some a => ret a | None => raise (UnboundLocalError name) end.

Definition max_length_default := 1024.
Definition batch_size := 32.

(** [range(0, n, step)] *)
Definition py_range_step (n step : nat) : list nat :=
  map (fun k => k * step) (seq 0 ((n + step - 1) / step)).

Section Script.

Variable mytok : Mytok.
Variable fs : Filesystem.

Definition encode_sequences (tokenizer : Tokenizer) (sequences : list string)
    (max_length : nat) : M (ndarray Z) :=
  let tokenized_sequences := map (fun seq => py_join " " (mytok seq 3 3)) sequences in
  match tokenizer tokenized_sequences max_length with
  | Some input_ids => ret input_ids
  | None => raise TokenizerException
  end.

(** [SeqIO.parse(path, "fasta")] followed by reading all its records. *)
Definition seqio_parse (path : option string) : M (list fasta_record) :=
  match path with
  | None => raise (TypeError "path is None")
  | Some p =>
      emit (ev_open p) ;;;
      match fs p with
      | Some records => ret records
      | None => raise (FileNotFoundError p)
      end
  end.

(** [- df['MFE_normalized'] + lambda_ * df['log_CAI']] for one row. *)
Definition mfe_cai_score (lam : Q) (r : row) : exc + Q :=
  match col "MFE_normalized" r, col "log_CAI" r with
  | inr m, inr c => inr (Qplus (Qopp m) (Qmult lam c))
  | inl e, _ => inl e
  | _, inl e => inl e
  end.

(** Lines 33-48. *)
Definition fsv_validate (a : fsv_args) : M source :=
  let dt := py_lower (data_type a) in
  if String.eqb dt "mfe" then ret (src_table "MFE_normalized" df_at_entry)
  else if String.eqb dt "cai" then ret (src_table "CAI" df_at_entry)
  else if String.eqb dt "mfe_cai" then
    match lambda_ a with
    | None => raise (ValueError "Must provide 'lambda_' for 'mfe_cai' data type.")
    | Some lam =>
        df <- read_local "df" df_at_entry ;;
        df' <- lift (set_col "score" (mfe_cai_score lam) df) ;;
        ret (src_table "score" (Some df'))
    end
  else if String.eqb dt "fasta" then
    py_assert 44 (match high_fa_path a, low_fa_path a with
                  | Some _, Some _ => true | _, _ => false end) ;;;
    high_fa <- seqio_parse (high_fa_path a) ;;
    low_fa <- seqio_parse (low_fa_path a) ;;
    ret (src_fasta high_fa low_fa)
  else raise (ValueError "data_type must be 'mfe' or 'cai' or 'mfe_cai' or 'fasta'.").

(** [len(sequences[df['ID']])] for one row. *)
Definition seq_length_of (sequences : option dict) (r : row) : exc + Q :=
  match dict_get sequences (row_ID r) with
  | inl e => inl e
  | inr s => inr (inject_Z (Z.of_nat (String.length s)))
  end.

(** Lines 51-70 ([src_fasta] is the case [data_type.lower() == 'fasta']). *)
Definition fsv_select (a : fsv_args) (s : source) : M (list string * list string) :=
  match s with
  | src_fasta high_fa low_fa => ret (map rec_seq high_fa, map rec_seq low_fa)
  | src_table value_col df_opt =>
      match percent a with
      | None => raise (ValueError "Must provide either 'percent' or 'cai_threshold' (only for 'cai').")
      | Some p =>
          df <- read_local "df" df_opt ;;
          df1 <- lift (set_col "seq_length" (seq_length_of (sequences a)) df) ;;
          let df2 := filter (fun r =>
                       match col "seq_length" r with
                       | inr l => Qle_bool (inject_Z (Z.of_nat (min_seq_len a))) l
                                  && Qle_bool l (inject_Z (Z.of_nat (max_seq_len a)))
                       | inl _ => false
                       end) df1 in
          let n := Z.to_nat (py_int (Qmult (inject_Z (Z.of_nat (List.length df2))) p)) in
          top <- lift (nlargest n value_col df2) ;;
          bottom <- lift (nsmallest n value_col df2) ;;
          top_seqs <- lift (mapE (fun r => dict_get (sequences a) (row_ID r)) top) ;;
          low_seqs <- lift (mapE (fun r => dict_get (sequences a) (row_ID r)) bottom) ;;
          ret (top_seqs, low_seqs)
      end
  end.

(** One iteration of the loops of lines 87-92 and 99-104. *)
Definition forward_batch (model : Model) (seqs : ndarray Z) (i : nat) : M (ndarray Q) :=
  let batch := slice0 seqs i (i + batch_size) in
  emit (ev_forward (nth 0 (shape batch) 0)) ;;;
  match model batch with
  | None => raise ModelException
  | Some hidden_states =>
      let encoder_layer_outputs := tl hidden_states in
      lift (stack0 encoder_layer_outputs)
  end.

(** Lines 85-95 (and 97-107): per-batch hidden states, concatenated along
    the sequence axis and averaged over it. *)
Definition collect_group (model : Model) (seqs : ndarray Z) : M (ndarray Q) :=
  n <- lift (size seqs 0) ;;
  vs <- mapM (forward_batch model seqs) (py_range_step n batch_size) ;;
  v <- lift (cat1 vs) ;;
  lift (mean1 v).

(** Lines 79-114. *)
Definition steering_from_ids (data_type : string) (model : Model)
    (top_ids low_ids : ndarray Z) : M (ndarray Q) :=
  s_top <- lift (size top_ids 1) ;;
  s_low <- lift (size low_ids 1) ;;
  py_assert 79 (Nat.eqb s_top s_low) ;;;
  emit (ev_print "Computing steering vectors...") ;;;
  top_steering_vectors <- collect_group model top_ids ;;
  low_steering_vectors <- collect_group model low_ids ;;
  steering_vectors <- lift (nd_sub top_steering_vectors low_steering_vectors) ;;
  if String.eqb (py_lower data_type) "mfe" then ret (nd_neg steering_vectors)
  else ret steering_vectors.

(** Lines 72-114 ([model.eval()] is part of [Model]). *)
Definition steering_from_seqs (data_type : string) (model : Model) (tokenizer : Tokenizer)
    (top_seqs low_seqs : list string) : M (ndarray Q) :=
  let max_length := max_length_default in
  top_ids <- encode_sequences tokenizer top_seqs max_length ;;
  low_ids <- encode_sequences tokenizer low_seqs max_length ;;
  steering_from_ids data_type model top_ids low_ids.

Definition fetch_steering_vector (model : Model) (tokenizer : Tokenizer) (a : fsv_args)
    : M (ndarray Q) :=
  s <- fsv_validate a ;;
  groups <- fsv_select a s ;;
  steering_from_seqs (data_type a) model tokenizer (fst groups) (snd groups).

(** [d[k] = v] on a Python dict: an existing key keeps its position and
    takes the new value; a new key goes last. *)
Fixpoint dict_set (d : dict) (k v : string) : dict :=
  match d with
  | [] => [(k, v)]
  | (k', v') :: d' => if String.eqb k k' then (k', v) :: d' else (k', v') :: dict_set d' k v
  end.

(** Lines 116-123. *)
Definition load_data (data_path : string) : M dict :=
  emit (ev_open data_path) ;;;
  match fs data_path with
  | None => raise (FileNotFoundError data_path)
  | Some records =>
      ret (fold_left (fun sequences record => dict_set sequences (rec_id record) (rec_seq record))
                     records [])
  end.

End Script.

(** ** The [__main__] block *)

(** Module-level bindings when line 125 runs, each with a description of
    its value: the module's own dunders, the imports, and the three
    functions defined at module level. *)
Definition module_globals : list (string * string) :=
  [("__name__", "__main__"); ("__doc__", "This script fetches the steering vectors");
   ("__builtins__", "<module builtins>");
   ("argparse", "<module argparse>"); ("SeqIO", "<module Bio.SeqIO>");
   ("sys", "<module sys>"); ("torch", "<module torch>");
   ("BertForPreTraining", "<class BertForPreTraining>"); ("pd", "<module pandas>");
   ("np", "<module numpy>"); ("tqdm", "<class tqdm>");
   ("PeftConfig", "<class PeftConfig>"); ("PeftModel", "<class PeftModel>");
   ("load_model", "<function load_model>"); ("os", "<module os>");
   ("mytok", "<function mytok>"); ("get_tokenizer", "<function get_tokenizer>");
   ("encode_sequences", "<function encode_sequences>");
   ("fetch_steering_vector", "<function fetch_steering_vector>");
   ("load_data", "<function load_data>")].

Definition builtin_names : list string :=
  ["print"; "len"; "str"; "int"; "range"; "open"; "ValueError"; "None"].

(** Reading a global name: module globals first, then builtins. *)
Definition py_global (env : list (string * string)) (name : string) : M string :=
  match assoc name env with
  | Some v => ret v
  | None =>
      if existsb (String.eqb name) builtin_names then ret ("<built-in " ++ name ++ ">")%string
      else raise (NameError name)
  end.

(** The parsed command line. *)
Record cli_args := mk_cli {
  cli_model_path : string;
  cli_high_fa_path : option string;
  cli_low_fa_path : option string;
  cli_data_type : string;
  cli_save_name : option string;
  cli_save_dir : string }.

(** [parser.parse_args()] given the command line and the defaults that
    [add_argument] registered; [None] when argparse rejects the command line. *)
Definition Argparse := list string -> cli_args -> option cli_args.

(** [PeftConfig.from_pretrained], [load_model], [PeftModel.from_pretrained],
    [merge_and_unload] and [.to(device)], giving the merged model and the
    fast BERT tokenizer; [None] when loading raises. *)
Definition Loader := string -> option (Model * Tokenizer).

Section Main.

Variable mytok : Mytok.
Variable fs : Filesystem.
Variable parse_args : Argparse.
Variable load : Loader.
Variable dir_exists : string -> bool.

Definition main (argv : list string) : M unit :=
  let env := module_globals in
  emit ev_new_parser ;;;
  model_path_default <- py_global env "model_path" ;;
  emit (ev_add_argument "--model_path") ;;;
  emit (ev_add_argument "--high_fa_path") ;;;
  emit (ev_add_argument "--low_fa_path") ;;;
  emit (ev_add_argument "--data_type") ;;;
  emit (ev_add_argument "--save_name") ;;;
  emit (ev_add_argument "--save_dir") ;;;
  emit ev_parse_args ;;;
  args <- match parse_args argv (mk_cli model_path_default None None "fasta" None "../data") with
          | Some args => ret args
          | None => raise (SystemExit 2)
          end ;;
  let model_path := cli_model_path args in
  let data_type := py_lower (cli_data_type args) in
  emit (ev_load_model model_path) ;;;
  loaded <- match load model_path with
            | Some mt => ret mt
            | None => raise ModelException
            end ;;
  steering_vectors <- fetch_steering_vector mytok fs (fst loaded) (snd loaded)
     (mk_args data_type None None 300 (3072 - 6) None
              (cli_high_fa_path args) (cli_low_fa_path args)) ;;
  emit (ev_print "steering_vectors.shape") ;;;
  (if dir_exists (cli_save_dir args) then ret tt
   else emit (ev_makedirs (cli_save_dir args))) ;;;
  save_name <- match cli_save_name args with
               | Some s => ret s
               | None => raise (TypeError "can only concatenate str (not NoneType) to str")
               end ;;
  let path := (cli_save_dir args ++ "/" ++ "steering_vectors_" ++ save_name ++ ".npy")%string in
  emit (ev_save path) ;;;
  emit (ev_print ("Saved steering vectors to " ++ path)%string).

End Main.

(** ** Concrete collaborators, for evaluating the script on small inputs *)

Module Toy.

(** Codons: windows of three letters taken with stride three. *)
Fixpoint codons (fuel : nat) (s : string) : list string :=
  match fuel with
  | O => []
  | S f =>
      match s with
      | String a (String b (String c rest)) => String a (String b (String c EmptyString)) :: codons f rest
      | _ => []
      end
  end.

Definition mytok : Mytok := fun s _ _ => codons (String.length s) s.

(** Pads (or cuts) every text to [m] ids; fails on an empty batch. *)
Definition tokenizer : Tokenizer := fun texts m =>
  match texts with
  | [] => None
  | _ => Some (mk_nd [List.length texts; m]
                 (List.concat (map (fun t => map (fun k => Z.of_nat (String.length t + k)) (seq 0 m)) texts)))
  end.

(** Two encoder layers and embedding size one: the embedding output and
    two layer outputs. *)
Definition model : Model := fun ids =>
  match shape ids with
  | [b; l] => Some (map (fun k => mk_nd [b; l; 1]
                       (map (fun z => inject_Z (z + Z.of_nat k)) (data ids))) (seq 0 3))
  | _ => None
  end.

Definition fs : Filesystem := fun p =>
  if String.eqb p "high.fa" then Some [mk_record "s1" "AUGGCCAAA"]
  else if String.eqb p "low.fa" then Some [mk_record "s2" "AUGUUU"; mk_record "s3" "AUG"]
  else if String.eqb p "dup.fa" then
    Some [mk_record "s1" "AAA"; mk_record "s2" "CCC"; mk_record "s1" "GGG"]
  else if String.eqb p "empty.fa" then Some []
  else None.

(** The same files with every record identifier replaced by "x". *)
Definition fs_anon : Filesystem := fun p =>
  option_map (map (fun r => mk_record "x" (rec_seq r))) (fs p).

Definition fasta_args (dt : string) (h l : option string) : fsv_args :=
  mk_args dt None None 300 (3072 - 6) None h l.

(** Row identifiers r00 ... r99. *)
Definition row_name (k : nat) : string :=
  String "r"%char (String (ascii_of_nat (48 + k / 10)) (String (ascii_of_nat (48 + k mod 10)) EmptyString)).

(** 100 sequences, each of 300 nucleotides. *)
Definition dict100 : dict :=
  map (fun k => (row_name k, String.concat "" (repeat "AUG" 100))) (seq 0 100).

(** A score table with 100 rows, CAI of row [k] being [k/100]. *)
Definition table100 : table :=
  map (fun k => mk_row (row_name k) [("CAI", Z.of_nat k # 100); ("MFE_normalized", Z.of_nat k # 10)])
      (seq 0 100).

Definition table_args (dt : string) : fsv_args :=
  mk_args dt (Some dict100) (Some (1 # 10)) 300 (3072 - 6) None None None.

End Toy.

(** ** Contracts of the third-party collaborators *)

(** HuggingFace tokenizers with [padding="max_length"] and [truncation=True]
    return one row of exactly [max_length] ids per text. *)
Definition pads_to_max_length (tok : Tokenizer) : Prop :=
  forall texts m ids, tok texts m = Some ids -> shape ids = [List.length texts; m].

(** A BERT encoder of depth [depth] and hidden size [emb] returns
    [depth + 1] hidden states (the embedding output, then one per encoder
    layer), each of shape (batch, length, emb). *)
Definition returns_layer_states (model : Model) (depth emb : nat) : Prop :=
  forall ids b l hs, shape ids = [b; l] -> model ids = Some hs ->
    List.length hs = S depth /\ Forall (fun h => shape h = [b; l; emb]) hs.

(** [sizes] splits [n] rows into the consecutive batches of lines 84-87:
    every batch holds between 1 and [batch_size] rows, the batches add up to
    [n], and there are ceil(n / batch_size) of them. *)
Definition batch_split (n : nat) (sizes : list nat) : Prop :=
  Forall (fun k => 1 <= k <= batch_size) sizes /\ list_sum sizes = n /\
  List.length sizes = (n + batch_size - 1) / batch_size.

(** Exceptions other than a failed [assert]. *)
Definition not_assertion (e : exc) : Prop :=
  match e with AssertionError _ => False | _ => True end.

Definition no_assertion {A} (m : M A) : Prop :=
  forall e, fst m = inl e -> not_assertion e.

(** ** Properties of the embedding *)

Lemma fst_bind {A B} (m : M A) (f : A -> M B) :
  fst (bind m f) = match fst m with inl e => inl e | inr a => fst (f a) end.
Proof. destruct m as [[e|a] w]; simpl; [reflexivity|]. destruct (f a); reflexivity. Qed.

Lemma bind_inr {A B} (m : M A) (f : A -> M B) v :
  fst (bind m f) = inr v -> exists a, fst m = inr a /\ fst (f a) = inr v.
Proof. rewrite fst_bind. destruct (fst m) as [e|a]; [discriminate|eauto]. Qed.

Ltac split_binds :=
  repeat match goal with
  | H : fst (bind _ _) = inr _ |- _ =>
      let x := fresh "x" in let Hx := fresh "Hx" in
      apply bind_inr in H; destruct H as [x [Hx H]]
  end.

(** Case analysis on the branch [data_type.lower()] selects. *)
Ltac case_dt a :=
  destruct (String.eqb_spec (py_lower (data_type a)) "mfe") as [Hmfe|Hmfe];
  [|destruct (String.eqb_spec (py_lower (data_type a)) "cai") as [Hcai|Hcai];
  [|destruct (String.eqb_spec (py_lower (data_type a)) "mfe_cai") as [Hmc|Hmc];
  [|destruct (String.eqb_spec (py_lower (data_type a)) "fasta") as [Hfa|Hfa]]]].

(** Only the [fasta] branch can return a value: the other branches raise
    [ValueError] or read the unbound local [df]. *)
Lemma fetch_inr_fasta mytok fs model tok a v :
  fst (fetch_steering_vector mytok fs model tok a) = inr v ->
  py_lower (data_type a) = "fasta".
Proof.
  unfold fetch_steering_vector, fsv_validate. cbv zeta.
  case_dt a; try (intros; assumption);
  repeat match goal with H : py_lower (data_type a) = _ |- _ => rewrite H end;
  repeat match goal with H : py_lower (data_type a) <> _ |- _ =>
           rewrite (proj2 (String.eqb_neq _ _) H) end;
  simpl.
  - destruct (percent a); intro H; discriminate H.
  - destruct (percent a); intro H; discriminate H.
  - destruct (lambda_ a); intro H; discriminate H.
  - intro H; discriminate H.
Qed.

(** C7: in [fasta] mode with neither FASTA path given, the call fails on the
    assertion of line 44 and performs no effect at all: no file is opened
    and the model is never run. *)
Theorem fasta_without_paths_fails_assertion mytok fs model tok a :
  py_lower (data_type a) = "fasta" ->
  high_fa_path a = None -> low_fa_path a = None ->
  fetch_steering_vector mytok fs model tok a = (inl (AssertionError 44), []).
Proof.
  intros Hdt Hh Hl.
  unfold fetch_steering_vector, fsv_validate. cbv zeta.
  rewrite Hdt, Hh, Hl. reflexivity.
Qed.

(** C6 (amended): the data type is matched after [lower()]; when the
    lower-cased data type is none of [mfe], [cai], [mfe_cai], [fasta], or it
    is [mfe_cai] without [lambda_], the call raises [ValueError] with no
    effect performed (nothing selected, no file opened, no forward pass). *)
Theorem validation_errors_are_immediate mytok fs model tok :
  (forall a, ~ In (py_lower (data_type a)) ["mfe"; "cai"; "mfe_cai"; "fasta"] ->
     fetch_steering_vector mytok fs model tok a =
     (inl (ValueError "data_type must be 'mfe' or 'cai' or 'mfe_cai' or 'fasta'."), [])) /\
  (forall a, py_lower (data_type a) = "mfe_cai" -> lambda_ a = None ->
     fetch_steering_vector mytok fs model tok a =
     (inl (ValueError "Must provide 'lambda_' for 'mfe_cai' data type."), [])).
Proof.
  split.
  - intros a Hnot. unfold fetch_steering_vector, fsv_validate. cbv zeta.
    case_dt a;
    try (exfalso; apply Hnot; simpl;
         first [left; congruence | right; left; congruence
               | right; right; left; congruence | right; right; right; left; congruence]).
    repeat match goal with H : py_lower (data_type a) <> _ |- _ =>
             rewrite (proj2 (String.eqb_neq _ _) H) end.
    reflexivity.
  - intros a Hdt Hl. unfold fetch_steering_vector, fsv_validate. cbv zeta.
    rewrite Hdt, Hl. reflexivity.
Qed.

(** C9: with [data_type] [mfe] or [cai] and a percentage, or [mfe_cai] with
    a blending coefficient, the call raises [UnboundLocalError] (a
    [NameError]) on [df] before any effect; hence only [fasta] returns. *)
Theorem table_modes_read_unbound_df mytok fs model tok :
  (forall a,
     (((py_lower (data_type a) = "mfe" \/ py_lower (data_type a) = "cai") /\ percent a <> None) \/
      (py_lower (data_type a) = "mfe_cai" /\ lambda_ a <> None)) ->
     fetch_steering_vector mytok fs model tok a = (inl (UnboundLocalError "df"), [])) /\
  (forall a v, fst (fetch_steering_vector mytok fs model tok a) = inr v ->
     py_lower (data_type a) = "fasta").
Proof.
  split.
  - intros a H. unfold fetch_steering_vector, fsv_validate. cbv zeta.
    destruct H as [[[Hdt|Hdt] Hp]|[Hdt Hl]]; rewrite Hdt; simpl.
    + destruct (percent a); [reflexivity|congruence].
    + destruct (percent a); [reflexivity|congruence].
    + destruct (lambda_ a); [reflexivity|congruence].
  - intros a v. apply fetch_inr_fasta.
Qed.

(** C10: running the script fails while building the argument parser:
    [default=model_path] reads a global that no statement has bound yet, so
    argument parsing, model loading and saving never happen. *)
Theorem main_fails_on_model_path_default mytok fs parse_args load dir_exists argv :
  main mytok fs parse_args load dir_exists argv = (inl (NameError "model_path"), [ev_new_parser]).
Proof. reflexivity. Qed.

(** Line 111-112: the tail of the computation negates the difference in
    [mfe] mode and only there. *)
Lemma mfe_tail_negates model top low :
  fst (steering_from_ids "mfe" model top low) =
  match fst (steering_from_ids "fasta" model top low) with
  | inl e => inl e
  | inr v => inr (nd_neg v)
  end.
Proof.
  unfold steering_from_ids.
  repeat (rewrite ?fst_bind; cbv beta;
          match goal with |- context [match fst ?m with _ => _ end] =>
            destruct (fst m); [reflexivity|] end).
  reflexivity.
Qed.

(** Were [df] bound to a 100-row table, lines 55-68 would select 10 rows
    for each group with [percent = 0.1]. *)
Lemma select_with_bound_df_takes_ten :
  exists top low,
    fst (fsv_select (Toy.table_args "cai") (src_table "CAI" (Some Toy.table100))) = inr (top, low) /\
    List.length top = 10 /\ List.length low = 10.
Proof. eexists _, _. split; [vm_compute; reflexivity | split; reflexivity]. Qed.

(** C2 (code bug): in [mfe] mode with a percentage the call raises
    [UnboundLocalError] on [df] instead of returning the negated
    difference. *)
Theorem mfe_mode_raises_instead_of_negating mytok fs model tok :
  fetch_steering_vector mytok fs model tok (Toy.table_args "mfe") =
  (inl (UnboundLocalError "df"), []).
Proof. reflexivity. Qed.

(** C5 (code bug): in [cai] mode with [percent = 0.1] and 100 sequences the
    call raises [UnboundLocalError] on [df] before any row is selected. *)
Theorem percent_selection_raises_unbound_df mytok fs model tok :
  fetch_steering_vector mytok fs model tok (Toy.table_args "cai") =
  (inl (UnboundLocalError "df"), []).
Proof. reflexivity. Qed.

Ltac bind_with H := rewrite fst_bind, H; cbv beta.

Lemma Qminus_swap x y : Qminus y x = Qopp (Qminus x y).
Proof.
  destruct x as [xn xd], y as [yn yd].
  unfold Qminus, Qplus, Qopp; simpl. f_equal; [ring | apply Pos.mul_comm].
Qed.

Lemma sub_combine_swap (xs ys : list Q) :
  map (fun p => Qminus (fst p) (snd p)) (combine ys xs) =
  map Qopp (map (fun p => Qminus (fst p) (snd p)) (combine xs ys)).
Proof.
  revert ys; induction xs as [|x xs IH]; intros [|y ys]; simpl; try reflexivity.
  f_equal; [apply Qminus_swap | apply IH].
Qed.

Lemma nd_sub_swap x y z : nd_sub x y = inr z -> nd_sub y x = inr (nd_neg z).
Proof.
  unfold nd_sub. destruct (list_eq_dec Nat.eq_dec (shape x) (shape y)) as [E|E]; [|discriminate].
  intros Hz; inversion Hz; subst z; clear Hz.
  destruct (list_eq_dec Nat.eq_dec (shape y) (shape x)) as [_|E']; [|congruence].
  unfold nd_neg; simpl. rewrite E, sub_combine_swap. reflexivity.
Qed.

Lemma steering_from_ids_swap dt model t l v :
  py_lower dt <> "mfe" ->
  fst (steering_from_ids dt model t l) = inr v ->
  fst (steering_from_ids dt model l t) = inr (nd_neg v).
Proof.
  intros Hdt H. unfold steering_from_ids in *. split_binds.
  rewrite (proj2 (String.eqb_neq _ _) Hdt) in H. simpl in H. inversion H; subst v; clear H.
  bind_with Hx0. bind_with Hx.
  assert (Hs : fst (py_assert 79 (x0 =? x)) = inr tt).
  { unfold py_assert in *. rewrite Nat.eqb_sym. destruct (x =? x0); [reflexivity|discriminate]. }
  bind_with Hs. bind_with Hx2. bind_with Hx4. bind_with Hx3.
  assert (Hsub : fst (lift (nd_sub x4 x3)) = inr (nd_neg x5)).
  { simpl in *. apply nd_sub_swap. assumption. }
  bind_with Hsub.
  rewrite (proj2 (String.eqb_neq _ _) Hdt). reflexivity.
Qed.

Lemma steering_from_seqs_swap mytok dt model tok A B v :
  py_lower dt <> "mfe" ->
  fst (steering_from_seqs mytok dt model tok A B) = inr v ->
  fst (steering_from_seqs mytok dt model tok B A) = inr (nd_neg v).
Proof.
  intros Hdt H. unfold steering_from_seqs in *. split_binds.
  bind_with Hx0. bind_with Hx.
  apply steering_from_ids_swap; assumption.
Qed.

Lemma validate_fasta fs a h l :
  py_lower (data_type a) = "fasta" -> high_fa_path a = Some h -> low_fa_path a = Some l ->
  fst (fsv_validate fs a) =
  match fs h, fs l with
  | Some hr, Some lr => inr (src_fasta hr lr)
  | None, _ => inl (FileNotFoundError h)
  | _, None => inl (FileNotFoundError l)
  end.
Proof.
  intros Hdt Hh Hl. unfold fsv_validate. cbv zeta. rewrite Hdt, Hh, Hl. simpl.
  destruct (fs h), (fs l); reflexivity.
Qed.

(** C3: for every data type but [mfe], exchanging the high and the low FASTA
    files negates the returned steering vector. *)
Theorem swap_fa_paths_negates mytok fs model tok a v :
  py_lower (data_type a) <> "mfe" ->
  fst (fetch_steering_vector mytok fs model tok a) = inr v ->
  fst (fetch_steering_vector mytok fs model tok (swap_fa_paths a)) = inr (nd_neg v).
Proof.
  intros Hdt H.
  pose proof (fetch_inr_fasta _ _ _ _ _ _ H) as Hfa.
  unfold fetch_steering_vector in *. split_binds.
  destruct (high_fa_path a) as [h|] eqn:Hh;
    [|unfold fsv_validate in Hx; cbv zeta in Hx; rewrite Hfa, Hh in Hx; discriminate].
  destruct (low_fa_path a) as [l|] eqn:Hl;
    [|unfold fsv_validate in Hx; cbv zeta in Hx; rewrite Hfa, Hh, Hl in Hx; discriminate].
  rewrite (validate_fasta _ _ _ _ Hfa Hh Hl) in Hx.
  assert (Hv : fst (fsv_validate fs (swap_fa_paths a)) =
               match fs l, fs h with
               | Some lr, Some hr => inr (src_fasta lr hr)
               | None, _ => inl (FileNotFoundError l)
               | _, None => inl (FileNotFoundError h)
               end) by (apply validate_fasta; simpl; assumption).
  destruct (fs h) as [hr|], (fs l) as [lr|]; try discriminate.
  inversion Hx; subst x; clear Hx.
  simpl in Hx0. inversion Hx0; subst x0; clear Hx0. simpl in H.
  bind_with Hv. rewrite fst_bind. simpl fst at 2. cbv beta. simpl fst.
  apply steering_from_seqs_swap; assumption.
Qed.

(** *** Shapes *)

Lemma stack0_shape {A} (ts : list (ndarray A)) t s :
  stack0 ts = inr t -> Forall (fun u => shape u = s) ts -> shape t = List.length ts :: s.
Proof.
  intros Ht HF. destruct ts as [|u ts']; [inversion Ht|]. unfold stack0 in Ht.
  revert Ht; destruct (forallb _ _); intro Ht; [|discriminate Ht]. inversion Ht; subst t.
  inversion HF; subst. reflexivity.
Qed.

Lemma cat1_shape {A} (ts : list (ndarray A)) t d rest :
  cat1 ts = inr t -> Forall (fun u => exists b, shape u = d :: b :: rest) ts ->
  exists n, shape t = d :: n :: rest.
Proof.
  intros Ht HF. destruct ts as [|u ts']; [inversion Ht|].
  inversion HF as [|? ? [b Hu] _]; subst. unfold cat1 in Ht. rewrite Hu in Ht. cbv beta iota in Ht.
  revert Ht; destruct (forallb _ _); intro Ht; [|discriminate Ht].
  inversion Ht; subst t. simpl. eauto.
Qed.

Lemma mean1_shape t t' a b rest :
  mean1 t = inr t' -> shape t = a :: b :: rest -> shape t' = a :: 1 :: rest.
Proof. unfold mean1. intros H Hs. rewrite Hs in H. inversion H. reflexivity. Qed.

Lemma nd_sub_shape x y z : nd_sub x y = inr z -> shape z = shape x.
Proof.
  unfold nd_sub. intros H. destruct (list_eq_dec _ _ _); [|discriminate H].
  inversion H; reflexivity.
Qed.

Lemma mapM_Forall {A B} (f : A -> M B) (P : B -> Prop) xs ys :
  (forall x y, fst (f x) = inr y -> P y) ->
  fst (mapM f xs) = inr ys -> Forall P ys.
Proof.
  intros Hf. revert ys. induction xs as [|x xs IH]; intros ys H; simpl in H.
  - inversion H; constructor.
  - split_binds. simpl in H. inversion H; subst ys. constructor; eauto.
Qed.

Lemma slice0_shape {A} (t : ndarray A) n l i j :
  shape t = [n; l] -> exists b, shape (slice0 t i j) = [b; l].
Proof. intros Hs. unfold slice0. rewrite Hs. simpl. eauto. Qed.

Lemma forward_batch_shape model depth emb seqs n l i v :
  returns_layer_states model depth emb -> shape seqs = [n; l] ->
  fst (forward_batch model seqs i) = inr v -> exists b, shape v = [depth; b; l; emb].
Proof.
  intros Hm Hs H. unfold forward_batch in H. split_binds.
  destruct (slice0_shape seqs n l i (i + batch_size) Hs) as [b Hb].
  destruct (model (slice0 seqs i (i + batch_size))) as [hs|] eqn:E; [|discriminate].
  destruct (Hm _ _ _ _ Hb E) as [Hlen HF].
  simpl in H. exists b.
  destruct hs as [|h0 hs']; [discriminate|]. simpl in Hlen, H. inversion HF; subst.
  rewrite (stack0_shape _ _ [b; l; emb] H H3). congruence.
Qed.

Lemma collect_group_shape model depth emb seqs n l v :
  returns_layer_states model depth emb -> shape seqs = [n; l] ->
  fst (collect_group model seqs) = inr v -> shape v = [depth; 1; l; emb].
Proof.
  intros Hm Hs H. unfold collect_group in H. split_binds. simpl in Hx1, H.
  assert (HF : Forall (fun u => exists b, shape u = [depth; b; l; emb]) x0).
  { eapply mapM_Forall; [|exact Hx0]. intros i y Hy. eapply forward_batch_shape; eauto. }
  destruct (cat1_shape _ _ _ _ Hx1 HF) as [n' Hn'].
  exact (mean1_shape _ _ _ _ _ H Hn').
Qed.

Lemma encode_sequences_shape mytok tok seqs m ids :
  pads_to_max_length tok ->
  fst (encode_sequences mytok tok seqs m) = inr ids -> shape ids = [List.length seqs; m].
Proof.
  intros Htok H. unfold encode_sequences in H.
  destruct (tok _ _) as [t|] eqn:E; [|discriminate]. simpl in H. inversion H; subst t.
  rewrite (Htok _ _ _ E), length_map. reflexivity.
Qed.

(** C1: every steering vector the call returns (only [fasta] mode returns
    one) has shape (depth, 1, 1024, emb): one entry per encoder layer, the
    embedding output being dropped, the groups averaged to size 1, and the
    fixed padding length 1024. *)
Theorem steering_vector_shape mytok fs model tok depth emb a v :
  pads_to_max_length tok -> returns_layer_states model depth emb ->
  fst (fetch_steering_vector mytok fs model tok a) = inr v ->
  shape v = [depth; 1; 1024; emb].
Proof.
  intros Htok Hm H. unfold fetch_steering_vector, steering_from_seqs, steering_from_ids in H.
  split_binds.
  pose proof (encode_sequences_shape _ _ _ _ _ Htok Hx1) as Hs1.
  pose proof (collect_group_shape _ _ _ _ _ _ _ Hm Hs1 Hx7) as Hv.
  simpl in Hx9.
  destruct (String.eqb _ _); simpl in H; inversion H; subst v;
    [unfold nd_neg; simpl|]; rewrite (nd_sub_shape _ _ _ Hx9); exact Hv.
Qed.

(** *** Which exceptions can arise *)

Lemma no_assertion_bind {A B} (m : M A) (f : A -> M B) :
  no_assertion m -> (forall a, fst m = inr a -> no_assertion (f a)) -> no_assertion (bind m f).
Proof.
  intros Hm Hf e. rewrite fst_bind. destruct (fst m) as [e'|a] eqn:E.
  - intros H; inversion H; subst. apply Hm; assumption.
  - intros H. exact (Hf a eq_refl e H).
Qed.

Lemma no_assertion_ret {A} (a : A) : no_assertion (ret a).
Proof. intros e H; discriminate H. Qed.

Lemma no_assertion_emit ev : no_assertion (emit ev).
Proof. intros e H; discriminate H. Qed.

Lemma no_assertion_lift {A} (r : exc + A) :
  (forall e, r = inl e -> not_assertion e) -> no_assertion (lift r).
Proof. intros H e He. apply H. exact He. Qed.

Lemma no_assertion_mapM {A B} (f : A -> M B) xs :
  (forall x, no_assertion (f x)) -> no_assertion (mapM f xs).
Proof.
  intros Hf. induction xs as [|x xs IH]; simpl.
  - apply no_assertion_ret.
  - apply no_assertion_bind; [apply Hf|]. intros y _.
    apply no_assertion_bind; [exact IH|]. intros ys _. apply no_assertion_ret.
Qed.

Ltac no_assert_lift :=
  apply no_assertion_lift; intros ?e ?He;
  repeat match type of He with
         | context [match ?x with _ => _ end] => destruct x
         end;
  try discriminate He; inversion He; subst; exact I.

Lemma forward_batch_no_assertion model seqs i : no_assertion (forward_batch model seqs i).
Proof.
  unfold forward_batch. apply no_assertion_bind; [apply no_assertion_emit|]. intros _ _.
  destruct (model _) as [hs|].
  - apply no_assertion_lift. intros e He. unfold stack0 in He.
    destruct (tl hs); [inversion He; exact I|].
    destruct (forallb _ _); inversion He; exact I.
  - intros e He; inversion He; exact I.
Qed.

Lemma collect_group_no_assertion model seqs : no_assertion (collect_group model seqs).
Proof.
  unfold collect_group.
  apply no_assertion_bind; [|intros n _].
  { apply no_assertion_lift. intros e He. unfold size in He.
    destruct (nth_error _ _); inversion He; exact I. }
  apply no_assertion_bind; [apply no_assertion_mapM, forward_batch_no_assertion|intros vs _].
  apply no_assertion_bind; [|intros v _].
  { apply no_assertion_lift. intros e He. unfold cat1 in He.
    destruct vs as [|u us]; [inversion He; exact I|].
    destruct (shape u) as [|d [|b rest]]; try (inversion He; exact I).
    destruct (forallb _ _); inversion He; exact I. }
  apply no_assertion_lift. intros e He. unfold mean1 in He.
  destruct (shape v) as [|d [|b rest]]; inversion He; exact I.
Qed.

Lemma size_of_shape {A} (t : ndarray A) n m : shape t = [n; m] -> size t 1 = inr m.
Proof. intros Hs. unfold size. rewrite Hs. reflexivity. Qed.

Lemma steering_from_seqs_not_79 mytok dt model tok A B :
  pads_to_max_length tok ->
  fst (steering_from_seqs mytok dt model tok A B) <> inl (AssertionError 79).
Proof.
  intros Htok Hf. unfold steering_from_seqs in Hf. cbv zeta in Hf.
  rewrite fst_bind in Hf.
  destruct (fst (encode_sequences mytok tok A max_length_default)) as [e|ids1] eqn:E1.
  { inversion Hf; subst. unfold encode_sequences in E1.
    destruct (tok _ _); discriminate E1. }
  rewrite fst_bind in Hf.
  cbv beta iota in Hf.
  destruct (fst (encode_sequences mytok tok B max_length_default)) as [e|ids2] eqn:E2.
  { inversion Hf; subst. unfold encode_sequences in E2.
    destruct (tok _ _); discriminate E2. }
  pose proof (size_of_shape _ _ _ (encode_sequences_shape _ _ _ _ _ Htok E1)) as S1.
  pose proof (size_of_shape _ _ _ (encode_sequences_shape _ _ _ _ _ Htok E2)) as S2.
  cbv beta iota in Hf.
  assert (Hna : no_assertion (steering_from_ids dt model ids1 ids2)).
  { unfold steering_from_ids. rewrite S1, S2.
    apply no_assertion_bind; [apply no_assertion_ret|intros s1 Hs1].
    apply no_assertion_bind; [apply no_assertion_ret|intros s2 Hs2].
    simpl in Hs1, Hs2. inversion Hs1; inversion Hs2; subst s1 s2.
    apply no_assertion_bind; [rewrite Nat.eqb_refl; apply no_assertion_ret|intros ? _].
    apply no_assertion_bind; [apply no_assertion_emit|intros ? _].
    apply no_assertion_bind; [apply collect_group_no_assertion|intros t _].
    apply no_assertion_bind; [apply collect_group_no_assertion|intros l _].
    apply no_assertion_bind; [|intros v _].
    { apply no_assertion_lift. intros e He. unfold nd_sub in He.
      destruct (list_eq_dec _ _ _); inversion He; exact I. }
    destruct (String.eqb _ _); apply no_assertion_ret. }
  exact (Hna _ Hf).
Qed.

Lemma validate_not_79 fs a : fst (fsv_validate fs a) <> inl (AssertionError 79).
Proof.
  unfold fsv_validate. cbv zeta.
  case_dt a;
  repeat match goal with H : py_lower (data_type a) = _ |- _ => rewrite H end;
  repeat match goal with H : py_lower (data_type a) <> _ |- _ =>
           rewrite (proj2 (String.eqb_neq _ _) H) end;
  simpl; try discriminate.
  - destruct (lambda_ a); discriminate.
  - destruct (high_fa_path a) as [h|], (low_fa_path a) as [l|]; simpl; try discriminate.
    destruct (fs h), (fs l); discriminate.
Qed.

Lemma validate_source fs a s :
  fst (fsv_validate fs a) = inr s ->
  (exists hr lr, s = src_fasta hr lr) \/ (exists c, s = src_table c None).
Proof.
  unfold fsv_validate. cbv zeta.
  case_dt a;
  repeat match goal with H : py_lower (data_type a) = _ |- _ => rewrite H end;
  repeat match goal with H : py_lower (data_type a) <> _ |- _ =>
           rewrite (proj2 (String.eqb_neq _ _) H) end;
  simpl; intro H.
  - inversion H; eauto.
  - inversion H; eauto.
  - destruct (lambda_ a); discriminate H.
  - destruct (high_fa_path a) as [h|], (low_fa_path a) as [l|]; simpl in H; try discriminate H.
    destruct (fs h), (fs l); inversion H; eauto.
  - discriminate H.
Qed.

(** C8: a token-length mismatch between the two groups fails the assertion
    of line 79 before any forward pass; and since both groups are padded to
    1024 tokens, no call ever fails that assertion. *)
Theorem token_length_assertion_unreachable mytok fs model tok :
  pads_to_max_length tok ->
  (forall dt top low s1 s2, size top 1 = inr s1 -> size low 1 = inr s2 -> s1 <> s2 ->
     steering_from_ids dt model top low = (inl (AssertionError 79), [])) /\
  (forall a, fst (fetch_steering_vector mytok fs model tok a) <> inl (AssertionError 79)).
Proof.
  intros Htok. split.
  - intros dt top low s1 s2 H1 H2 Hne. unfold steering_from_ids. rewrite H1, H2.
    unfold py_assert. simpl. rewrite (proj2 (Nat.eqb_neq _ _) Hne). reflexivity.
  - intros a Hf. unfold fetch_steering_vector in Hf. rewrite fst_bind in Hf.
    destruct (fst (fsv_validate fs a)) as [e|s] eqn:Ev.
    + inversion Hf; subst. exact (validate_not_79 fs a Ev).
    + cbv beta iota in Hf. rewrite fst_bind in Hf.
      destruct (validate_source _ _ _ Ev) as [[hr [lr ->]]|[c ->]].
      * assert (Es : fst (fsv_select a (src_fasta hr lr)) = inr (map rec_seq hr, map rec_seq lr))
          by reflexivity.
        rewrite Es in Hf. cbv beta iota in Hf.
        exact (steering_from_seqs_not_79 _ _ _ _ _ _ Htok Hf).
      * unfold fsv_select in Hf. destruct (percent a); discriminate Hf.
Qed.

(** ** Witnesses and counterexamples on the concrete collaborators *)

Lemma Toy_pads : pads_to_max_length Toy.tokenizer.
Proof. intros texts m ids H. destruct texts; [discriminate H|]. inversion H. reflexivity. Qed.

Lemma Toy_layers : returns_layer_states Toy.model 2 1.
Proof.
  intros ids b l hs Hs Hm. unfold Toy.model in Hm. rewrite Hs in Hm. inversion Hm; subst.
  split; [reflexivity|]. repeat constructor.
Qed.

Lemma steering_vector_shape_witness :
  exists v, fst (fetch_steering_vector Toy.mytok Toy.fs Toy.model Toy.tokenizer
                   (Toy.fasta_args "fasta" (Some "high.fa") (Some "low.fa"))) = inr v /\
            shape v = [2; 1; 1024; 1].
Proof.
  exists (match fst (fetch_steering_vector Toy.mytok Toy.fs Toy.model Toy.tokenizer
                      (Toy.fasta_args "fasta" (Some "high.fa") (Some "low.fa"))) with
          | inr v => v | inl _ => mk_nd [] [] end).
  split; [vm_compute; reflexivity|].
  apply (steering_vector_shape Toy.mytok Toy.fs Toy.model Toy.tokenizer 2 1
           (Toy.fasta_args "fasta" (Some "high.fa") (Some "low.fa")));
    [exact Toy_pads | exact Toy_layers | vm_compute; reflexivity].
Defined.

Lemma swap_fa_paths_negates_witness :
  exists v, fst (fetch_steering_vector Toy.mytok Toy.fs Toy.model Toy.tokenizer
                   (Toy.fasta_args "fasta" (Some "high.fa") (Some "low.fa"))) = inr v /\
            fst (fetch_steering_vector Toy.mytok Toy.fs Toy.model Toy.tokenizer
                   (swap_fa_paths (Toy.fasta_args "fasta" (Some "high.fa") (Some "low.fa")))) =
            inr (nd_neg v).
Proof.
  exists (match fst (fetch_steering_vector Toy.mytok Toy.fs Toy.model Toy.tokenizer
                      (Toy.fasta_args "fasta" (Some "high.fa") (Some "low.fa"))) with
          | inr v => v | inl _ => mk_nd [] [] end).
  split; [vm_compute; reflexivity|].
  apply swap_fa_paths_negates; [simpl; discriminate | vm_compute; reflexivity].
Defined.

(** C6 as first stated fails: [FASTA] is none of the four lower-case names,
    yet the call is accepted and returns a steering vector. *)
Lemma uppercase_data_type_is_accepted :
  ~ (forall a, ~ In (data_type a) ["mfe"; "cai"; "mfe_cai"; "fasta"] ->
       exists e, fetch_steering_vector Toy.mytok Toy.fs Toy.model Toy.tokenizer a = (inl e, [])).
Proof.
  intros H.
  destruct (H (Toy.fasta_args "FASTA" (Some "high.fa") (Some "low.fa"))) as [e He].
  - simpl. intros [Hs|[Hs|[Hs|[Hs|Hs]]]]; try discriminate Hs; exact Hs.
  - vm_compute in He. discriminate He.
Qed.

Lemma validation_errors_are_immediate_witness :
  fetch_steering_vector Toy.mytok Toy.fs Toy.model Toy.tokenizer (default_args "json") =
    (inl (ValueError "data_type must be 'mfe' or 'cai' or 'mfe_cai' or 'fasta'."), []) /\
  fetch_steering_vector Toy.mytok Toy.fs Toy.model Toy.tokenizer (default_args "MFE_CAI") =
    (inl (ValueError "Must provide 'lambda_' for 'mfe_cai' data type."), []).
Proof.
  split.
  - apply (proj1 (validation_errors_are_immediate Toy.mytok Toy.fs Toy.model Toy.tokenizer)).
    simpl. intros [Hs|[Hs|[Hs|[Hs|Hs]]]]; try discriminate Hs; exact Hs.
  - apply (proj2 (validation_errors_are_immediate Toy.mytok Toy.fs Toy.model Toy.tokenizer));
      reflexivity.
Defined.

Lemma fasta_without_paths_fails_assertion_witness :
  fetch_steering_vector Toy.mytok Toy.fs Toy.model Toy.tokenizer (Toy.fasta_args "Fasta" None None) =
  (inl (AssertionError 44), []).
Proof. apply fasta_without_paths_fails_assertion; reflexivity. Defined.

Lemma token_length_assertion_unreachable_witness :
  steering_from_ids "fasta" Toy.model (mk_nd [1; 3] [1; 2; 3]%Z) (mk_nd [1; 4] [1; 2; 3; 4]%Z) =
    (inl (AssertionError 79), []) /\
  fst (fetch_steering_vector Toy.mytok Toy.fs Toy.model Toy.tokenizer
         (Toy.fasta_args "fasta" (Some "high.fa") (Some "low.fa"))) <> inl (AssertionError 79).
Proof.
  split.
  - apply (proj1 (token_length_assertion_unreachable Toy.mytok Toy.fs Toy.model Toy.tokenizer Toy_pads))
      with (s1 := 3) (s2 := 4); [reflexivity | reflexivity | lia].
  - apply (proj2 (token_length_assertion_unreachable Toy.mytok Toy.fs Toy.model Toy.tokenizer Toy_pads)).
Defined.

Lemma table_modes_read_unbound_df_witness :
  fetch_steering_vector Toy.mytok Toy.fs Toy.model Toy.tokenizer (Toy.table_args "MFE") =
    (inl (UnboundLocalError "df"), []) /\
  py_lower (data_type (Toy.fasta_args "FASTA" (Some "high.fa") (Some "low.fa"))) = "fasta".
Proof.
  split.
  - apply (proj1 (table_modes_read_unbound_df Toy.mytok Toy.fs Toy.model Toy.tokenizer)).
    left. split; [left; reflexivity | discriminate].
  - apply (proj2 (table_modes_read_unbound_df Toy.mytok Toy.fs Toy.model Toy.tokenizer)
             _ (match fst (fetch_steering_vector Toy.mytok Toy.fs Toy.model Toy.tokenizer
                       (Toy.fasta_args "FASTA" (Some "high.fa") (Some "low.fa"))) with
                | inr v => v | inl _ => mk_nd [] [] end)).
    vm_compute. reflexivity.
Defined.

(** ** Further properties: [load_data] *)

Lemma dict_set_keys d k v k' :
  In k' (map fst (dict_set d k v)) <-> k' = k \/ In k' (map fst d).
Proof.
  induction d as [|[k0 v0] d IH]; simpl.
  - split; intros [H|[]]; left; congruence.
  - destruct (String.eqb_spec k k0) as [->|Hne]; simpl.
    + split; [tauto|]. intros [H|H]; [left; congruence|exact H].
    + rewrite IH. tauto.
Qed.

Lemma dict_set_nodup d k v : NoDup (map fst d) -> NoDup (map fst (dict_set d k v)).
Proof.
  induction d as [|[k0 v0] d IH]; simpl; intros Hnd.
  - constructor; [intros []|constructor].
  - inversion Hnd as [|? ? Hnin Hnd']; subst.
    destruct (String.eqb_spec k k0) as [->|Hne]; simpl; [exact Hnd|].
    constructor; [|exact (IH Hnd')]. rewrite dict_set_keys. intros [H|H]; [congruence|tauto].
Qed.

Lemma dict_set_same d k v : assoc k (dict_set d k v) = Some v.
Proof.
  induction d as [|[k0 v0] d IH]; simpl.
  - rewrite String.eqb_refl. reflexivity.
  - destruct (String.eqb_spec k k0) as [->|Hne]; simpl.
    + rewrite String.eqb_refl. reflexivity.
    + rewrite (proj2 (String.eqb_neq _ _) Hne). exact IH.
Qed.

Lemma dict_set_other d k k' v : k' <> k -> assoc k' (dict_set d k v) = assoc k' d.
Proof.
  intros Hne. induction d as [|[k0 v0] d IH]; simpl.
  - rewrite (proj2 (String.eqb_neq _ _) Hne). reflexivity.
  - destruct (String.eqb_spec k k0) as [->|Hk]; simpl.
    + rewrite (proj2 (String.eqb_neq _ _) Hne). reflexivity.
    + rewrite IH. reflexivity.
Qed.

Lemma load_data_result fs p d :
  fst (load_data fs p) = inr d ->
  exists rs, fs p = Some rs /\
    d = fold_left (fun sequences record => dict_set sequences (rec_id record) (rec_seq record)) rs [].
Proof.
  unfold load_data. rewrite fst_bind. simpl.
  destruct (fs p) as [rs|]; simpl; intros H; inversion H; eauto.
Qed.

Lemma app_cons_last {A} (pre post rs : list A) r x :
  pre ++ r :: post = rs ++ [x] ->
  (post = [] /\ r = x /\ pre = rs) \/
  (exists post', post = post' ++ [x] /\ rs = pre ++ r :: post').
Proof.
  intros H. destruct post as [|p0 post0].
  - left. apply app_inj_tail in H as [-> ->]. auto.
  - right. destruct (exists_last (l := p0 :: post0) ltac:(discriminate)) as [l' [y Hl]].
    rewrite Hl in H. rewrite app_comm_cons, app_assoc in H.
    apply app_inj_tail in H as [H ->]. exists l'. auto.
Qed.

(** [load_data] maps an identifier to the sequence of the last record that
    carries it: later duplicates overwrite earlier ones. *)
Theorem load_data_lookup fs p d k s :
  fst (load_data fs p) = inr d ->
  (assoc k d = Some s <->
   exists rs pre r post, fs p = Some rs /\ rs = pre ++ r :: post /\
     rec_id r = k /\ rec_seq r = s /\ Forall (fun r' => rec_id r' <> k) post).
Proof.
  intros H. destruct (load_data_result _ _ _ H) as [rs [Hfs ->]].
  assert (Hgen : assoc k (fold_left (fun sequences record =>
                    dict_set sequences (rec_id record) (rec_seq record)) rs []) = Some s <->
                 exists pre r post, rs = pre ++ r :: post /\
                   rec_id r = k /\ rec_seq r = s /\ Forall (fun r' => rec_id r' <> k) post).
  { clear H Hfs. induction rs as [|x rs IH] using rev_ind.
    - simpl. split; [discriminate|]. intros [pre [r [post [Hp _]]]].
      destruct pre; discriminate Hp.
    - rewrite fold_left_app. simpl.
      destruct (String.eqb_spec (rec_id x) k) as [Hx|Hx].
      + rewrite Hx, dict_set_same. split.
        * intros Hs. inversion Hs; subst. exists rs, x, []. auto.
        * intros [pre [r [post [Hp [Hr [Hs Hpost]]]]]].
          destruct (app_cons_last _ _ _ _ _ (eq_sym Hp)) as [[-> [-> _]]|[post' [-> _]]];
            [congruence|].
          apply Forall_app in Hpost as [_ Hl]. inversion Hl; contradiction.
      + rewrite dict_set_other by congruence. rewrite IH. split.
        * intros [pre [r [post [Hp [Hr [Hs Hpost]]]]]].
          exists pre, r, (post ++ [x]). subst. rewrite <- app_assoc. simpl.
          repeat split; try reflexivity. apply Forall_app. split; [exact Hpost|].
          constructor; [exact Hx|constructor].
        * intros [pre [r [post [Hp [Hr [Hs Hpost]]]]]].
          destruct (app_cons_last _ _ _ _ _ (eq_sym Hp)) as [[-> [-> _]]|[post' [-> Hrs]]];
            [congruence|].
          apply Forall_app in Hpost as [Hpost _]. eauto 10. }
  rewrite Hgen. split.
  - intros [pre [r [post Hx]]]. exists rs, pre, r, post. tauto.
  - intros [rs' [pre [r [post [Hrs Hx]]]]]. rewrite Hfs in Hrs. inversion Hrs; subst rs'.
    exists pre, r, post. exact Hx.
Qed.

(** The dictionary [load_data] builds has no duplicate key, and its keys
    are exactly the identifiers of the file's records. *)
Theorem load_data_keys fs p d :
  fst (load_data fs p) = inr d ->
  exists rs, fs p = Some rs /\ NoDup (map fst d) /\
    (forall k, In k (map fst d) <-> exists r, In r rs /\ rec_id r = k).
Proof.
  intros H. destruct (load_data_result _ _ _ H) as [rs [Hfs ->]]. exists rs. split; [exact Hfs|].
  assert (Hgen : forall d0, NoDup (map fst d0) ->
    NoDup (map fst (fold_left (fun sequences record =>
                      dict_set sequences (rec_id record) (rec_seq record)) rs d0)) /\
    (forall k, In k (map fst (fold_left (fun sequences record =>
                      dict_set sequences (rec_id record) (rec_seq record)) rs d0)) <->
               In k (map fst d0) \/ exists r, In r rs /\ rec_id r = k)).
  { clear H Hfs. induction rs as [|x rs IH]; intros d0 Hnd; simpl.
    - split; [exact Hnd|]. intros k. split; [tauto|]. intros [Hk|[r [[] _]]]; exact Hk.
    - destruct (IH (dict_set d0 (rec_id x) (rec_seq x)) (dict_set_nodup _ _ _ Hnd)) as [Hn Hk].
      split; [exact Hn|]. intros k. rewrite Hk, dict_set_keys. split.
      + intros [[->|Hk0]|[r [Hr Hrk]]]; eauto.
      + intros [Hk0|[r [[->|Hr] Hrk]]]; eauto. }
  destruct (Hgen [] (NoDup_nil _)) as [Hn Hk]. split; [exact Hn|].
  intros k. rewrite Hk. simpl. tauto.
Qed.

(** ** Further properties: batching and effects of a call *)

(** The row count of the batch starting at [i], as [slice0] computes it. *)
Lemma slice0_rows {A} (t : ndarray A) n rest i j :
  shape t = n :: rest ->
  nth 0 (shape (slice0 t i j)) 0 = Nat.min j n - Nat.min i (Nat.min j n).
Proof. intros Hs. unfold slice0. rewrite Hs. reflexivity. Qed.

Lemma range_bound n k : k < (n + batch_size - 1) / batch_size -> k * batch_size < n.
Proof.
  unfold batch_size. intros Hk.
  pose proof (Nat.Div0.mul_div_le (n + 32 - 1) 32). nia.
Qed.

Lemma range_cover n : n <= (n + batch_size - 1) / batch_size * batch_size.
Proof.
  unfold batch_size.
  pose proof (Nat.div_mod_eq (n + 32 - 1) 32). pose proof (Nat.mod_upper_bound (n + 32 - 1) 32 ltac:(lia)).
  lia.
Qed.

Definition rows_at (n i : nat) : nat := Nat.min (i + batch_size) n - Nat.min i (Nat.min (i + batch_size) n).

Lemma batch_split_range n : batch_split n (map (rows_at n) (py_range_step n batch_size)).
Proof.
  unfold py_range_step. rewrite map_map.
  set (q := (n + batch_size - 1) / batch_size).
  assert (Hlt : forall k, In k (seq 0 q) -> k * batch_size < n).
  { intros k Hk. apply in_seq in Hk. apply range_bound. unfold q in Hk. lia. }
  split; [|split].
  - apply Forall_forall. intros k Hk. apply in_map_iff in Hk as [j [<- Hj]].
    specialize (Hlt j Hj). cbv beta. unfold rows_at, batch_size in *. lia.
  - assert (Hsum : forall c, c <= q ->
              list_sum (map (fun k => rows_at n (k * batch_size)) (seq 0 c)) = Nat.min (c * batch_size) n).
    { induction c as [|c IH]; intros Hc; [reflexivity|].
      rewrite seq_S, map_app, list_sum_app, IH by lia. cbn [map list_sum fold_right].
      assert (c * batch_size < n) by (apply range_bound; unfold q in Hc; lia).
      unfold rows_at, batch_size in *. lia. }
    rewrite (Hsum q (le_n q)). pose proof (range_cover n). unfold q. lia.
  - rewrite length_map, length_seq. reflexivity.
Qed.

Lemma snd_bind_inr {A B} (m : M A) (f : A -> M B) a :
  fst m = inr a -> snd (bind m f) = snd m ++ snd (f a).
Proof.
  destruct m as [[e|a'] w]; simpl; intros H; inversion H; subst. destruct (f a); reflexivity.
Qed.

Ltac trace_step :=
  match goal with
  | H : fst (bind ?m ?f) = inr _ |- context [snd (bind ?m ?f)] =>
      let x := fresh "x" in let Hx := fresh "Hx" in
      apply bind_inr in H; destruct H as [x [Hx H]];
      rewrite (snd_bind_inr m f x Hx); cbv beta in H |- *
  end.

Lemma mapM_trace {A B} (f : A -> M B) xs ys :
  fst (mapM f xs) = inr ys -> snd (mapM f xs) = List.concat (map (fun x => snd (f x)) xs).
Proof.
  revert ys. induction xs as [|x xs IH]; intros ys H; [reflexivity|].
  simpl in H |- *. trace_step. trace_step. simpl. rewrite (IH _ Hx0), !app_nil_r. reflexivity.
Qed.

Lemma forward_batch_trace model seqs n rest i v :
  shape seqs = n :: rest ->
  fst (forward_batch model seqs i) = inr v ->
  snd (forward_batch model seqs i) = [ev_forward (rows_at n i)].
Proof.
  intros Hs H. unfold forward_batch in *. trace_step.
  destruct (model _); [|discriminate H]. simpl. rewrite (slice0_rows _ _ _ _ _ Hs). reflexivity.
Qed.

(** A successful pass over a group of [n] rows runs the model once per
    batch, on batches that split [n], and needs [n >= 1]. *)
Lemma collect_group_batches model seqs n rest v :
  shape seqs = n :: rest ->
  fst (collect_group model seqs) = inr v ->
  1 <= n /\ exists sizes, snd (collect_group model seqs) = map ev_forward sizes /\ batch_split n sizes.
Proof.
  intros Hs H. unfold collect_group in *.
  apply bind_inr in H as [n' [Hn H]]. simpl in Hn. unfold size in Hn. rewrite Hs in Hn. simpl in Hn.
  injection Hn as <-.
  apply bind_inr in H as [vs [Hvs H]]. apply bind_inr in H as [cv [Hcv H]]. simpl in Hcv.
  split.
  - destruct vs as [|u us]; [discriminate Hcv|].
    destruct (py_range_step n batch_size) as [|i is] eqn:Er.
    + simpl in Hvs. congruence.
    + assert (Hi : In i (py_range_step n batch_size)) by (rewrite Er; left; reflexivity).
      unfold py_range_step in Hi. apply in_map_iff in Hi as [k [<- Hk]].
      apply in_seq in Hk. pose proof (range_bound n k). lia.
  - exists (map (rows_at n) (py_range_step n batch_size)). split; [|apply batch_split_range].
    assert (Hn : fst (lift (size seqs 0)) = inr n) by (simpl; unfold size; rewrite Hs; reflexivity).
    rewrite (snd_bind_inr _ _ _ Hn). cbv beta.
    rewrite (snd_bind_inr _ _ _ Hvs). cbv beta.
    assert (Hc : fst (lift (cat1 vs)) = inr cv) by exact Hcv.
    rewrite (snd_bind_inr _ _ _ Hc). simpl.
    rewrite (mapM_trace _ _ _ Hvs), !app_nil_r.
    clear Hc Hcv H. revert vs Hvs. induction (py_range_step n batch_size) as [|i is IH]; intros vs Hvs; [reflexivity|].
    simpl in Hvs. apply bind_inr in Hvs as [w [Hw Hvs]]. apply bind_inr in Hvs as [ws [Hws _]].
    simpl. rewrite (forward_batch_trace _ _ _ _ _ _ Hs Hw). simpl. f_equal. exact (IH ws Hws).
Qed.

Lemma snd_py_assert l b : snd (py_assert l b) = [].
Proof. destruct b; reflexivity. Qed.

Lemma snd_encode_sequences mytok tok seqs m : snd (encode_sequences mytok tok seqs m) = [].
Proof. unfold encode_sequences. destruct (tok _ _); reflexivity. Qed.

Lemma steering_from_ids_run dt model t l v n1 r1 n2 r2 :
  shape t = n1 :: r1 -> shape l = n2 :: r2 ->
  fst (steering_from_ids dt model t l) = inr v ->
  1 <= n1 /\ 1 <= n2 /\
  exists st sl,
    snd (steering_from_ids dt model t l) =
      [ev_print "Computing steering vectors..."] ++ map ev_forward st ++ map ev_forward sl /\
    batch_split n1 st /\ batch_split n2 sl.
Proof.
  intros Ht Hl H. unfold steering_from_ids in *.
  do 7 trace_step.
  match goal with Hc : fst (collect_group model t) = inr _ |- _ =>
    destruct (collect_group_batches _ _ _ _ _ Ht Hc) as [Hn1 [st [Hst Bst]]]; rewrite Hst end.
  match goal with Hc : fst (collect_group model l) = inr _ |- _ =>
    destruct (collect_group_batches _ _ _ _ _ Hl Hc) as [Hn2 [sl [Hsl Bsl]]]; rewrite Hsl end.
  rewrite snd_py_assert.
  split; [exact Hn1|]. split; [exact Hn2|]. exists st, sl. split; [|split; assumption].
  destruct (String.eqb _ _); simpl; rewrite !app_nil_r; reflexivity.
Qed.

Lemma steering_from_seqs_run mytok dt model tok top low v :
  pads_to_max_length tok ->
  fst (steering_from_seqs mytok dt model tok top low) = inr v ->
  1 <= List.length top /\ 1 <= List.length low /\
  exists st sl,
    snd (steering_from_seqs mytok dt model tok top low) =
      [ev_print "Computing steering vectors..."] ++ map ev_forward st ++ map ev_forward sl /\
    batch_split (List.length top) st /\ batch_split (List.length low) sl.
Proof.
  intros Htok H. unfold steering_from_seqs in *. cbv zeta in *.
  do 2 trace_step.
  rename x into ti, Hx into Hti, x0 into li, Hx0 into Hli.
  rewrite !snd_encode_sequences.
  apply (steering_from_ids_run _ _ _ _ _ _ _ _ _
           (encode_sequences_shape _ _ _ _ _ Htok Hti) (encode_sequences_shape _ _ _ _ _ Htok Hli)) in H.
  exact H.
Qed.

Lemma validate_fasta_run fs a h l :
  py_lower (data_type a) = "fasta" -> high_fa_path a = Some h -> low_fa_path a = Some l ->
  fsv_validate fs a =
  match fs h, fs l with
  | Some hr, Some lr => (inr (src_fasta hr lr), [ev_open h; ev_open l])
  | None, _ => (inl (FileNotFoundError h), [ev_open h])
  | Some _, None => (inl (FileNotFoundError l), [ev_open h; ev_open l])
  end.
Proof.
  intros Hdt Hh Hl. unfold fsv_validate. cbv zeta. rewrite Hdt, Hh, Hl. simpl.
  destruct (fs h), (fs l); reflexivity.
Qed.

Lemma fetch_run mytok fs model tok a v :
  pads_to_max_length tok ->
  fst (fetch_steering_vector mytok fs model tok a) = inr v ->
  exists h l hr lr st sl,
    high_fa_path a = Some h /\ low_fa_path a = Some l /\ fs h = Some hr /\ fs l = Some lr /\
    1 <= List.length hr /\ 1 <= List.length lr /\
    snd (fetch_steering_vector mytok fs model tok a) =
      [ev_open h; ev_open l; ev_print "Computing steering vectors..."] ++
      map ev_forward st ++ map ev_forward sl /\
    batch_split (List.length hr) st /\ batch_split (List.length lr) sl.
Proof.
  intros Htok H.
  pose proof (fetch_inr_fasta _ _ _ _ _ _ H) as Hfa.
  unfold fetch_steering_vector in *.
  destruct (high_fa_path a) as [h|] eqn:Hh;
    [|unfold fsv_validate in H; cbv zeta in H; rewrite Hfa, Hh in H; discriminate H].
  destruct (low_fa_path a) as [l|] eqn:Hl;
    [|unfold fsv_validate in H; cbv zeta in H; rewrite Hfa, Hh, Hl in H; discriminate H].
  rewrite (validate_fasta_run fs a h l Hfa Hh Hl) in H |- *.
  destruct (fs h) as [hr|] eqn:Ehr; [|discriminate H].
  destruct (fs l) as [lr|] eqn:Elr; [|discriminate H].
  rewrite fst_bind in H. cbn [fst] in H. cbv beta iota in H.
  rewrite (snd_bind_inr (inr (src_fasta hr lr), [ev_open h; ev_open l]) _ _ eq_refl). cbv beta.
  rewrite fst_bind in H. cbn [fst fsv_select ret] in H. cbv beta iota in H.
  rewrite (snd_bind_inr (fsv_select a (src_fasta hr lr)) _ (map rec_seq hr, map rec_seq lr) eq_refl).
  cbv beta.
  cbn [fst snd] in H |- *.
  destruct (steering_from_seqs_run _ _ _ _ _ _ _ Htok H) as [H1 [H2 [st [sl [Hs [B1 B2]]]]]].
  rewrite length_map in H1, H2, B1, B2.
  exists h, l, hr, lr, st, sl.
  do 6 (split; [first [assumption | reflexivity]|]). split; [rewrite Hs; reflexivity|]. split; assumption.
Qed.

Lemma nd_sub_self_zero x z : nd_sub x x = inr z -> Forall (fun q => Qeq q 0) (data z).
Proof.
  unfold nd_sub. destruct (list_eq_dec _ _ _) as [_|Hne]; [|contradiction].
  intros H. injection H as <-. simpl.
  induction (data x) as [|q qs IH]; simpl; constructor; [|exact IH].
  unfold Qminus. apply Qplus_opp_r.
Qed.

Lemma nd_neg_zero z : Forall (fun q => Qeq q 0) (data z) -> Forall (fun q => Qeq q 0) (data (nd_neg z)).
Proof.
  intros Hz. simpl. apply Forall_map. eapply Forall_impl; [|exact Hz].
  intros q Hq. rewrite Hq. reflexivity.
Qed.

Lemma steering_from_ids_self_zero dt model t v :
  fst (steering_from_ids dt model t t) = inr v -> Forall (fun q => Qeq q 0) (data v).
Proof.
  intros H. unfold steering_from_ids in H.
  apply bind_inr in H as [s1 [_ H]]. apply bind_inr in H as [s2 [_ H]].
  apply bind_inr in H as [u1 [_ H]]. apply bind_inr in H as [u2 [_ H]].
  apply bind_inr in H as [c1 [Hc1 H]]. apply bind_inr in H as [c2 [Hc2 H]].
  rewrite Hc1 in Hc2. injection Hc2 as <-.
  apply bind_inr in H as [z [Hz H]]. simpl in Hz.
  pose proof (nd_sub_self_zero _ _ Hz) as Hzero.
  destruct (String.eqb _ _); simpl in H; injection H as <-; [apply nd_neg_zero|]; exact Hzero.
Qed.

(** ** Further properties: [fetch_steering_vector] on FASTA files *)


(** Lines 44-107: a call that returns a vector opened the high file, then
    the low file, printed "Computing steering vectors...", and then ran the
    model once per batch
    of at most 32 sequences, first over the high sequences and then over the
    low ones; the batches cover each group exactly, ceil(n/32) of them for a
    group of n sequences. *)
Theorem successful_call_effects mytok fs model tok a v :
  pads_to_max_length tok ->
  fst (fetch_steering_vector mytok fs model tok a) = inr v ->
  exists h l hr lr st sl,
    high_fa_path a = Some h /\ low_fa_path a = Some l /\ fs h = Some hr /\ fs l = Some lr /\
    snd (fetch_steering_vector mytok fs model tok a) =
      [ev_open h; ev_open l; ev_print "Computing steering vectors..."] ++
      map ev_forward st ++ map ev_forward sl /\
    batch_split (List.length hr) st /\ batch_split (List.length lr) sl.
Proof.
  intros Htok H.
  destruct (fetch_run _ _ _ _ _ _ Htok H)
    as [h [l [hr [lr [st [sl [Hh [Hl [Ehr [Elr [_ [_ [Hs [B1 B2]]]]]]]]]]]]]].
  exists h, l, hr, lr, st, sl. do 5 (split; [assumption|]). split; assumption.
Qed.

(** Lines 84-95: a FASTA file without records yields no steering vector:
    [torch.cat] of an empty list raises (or the tokenizer already fails). *)
Theorem empty_fasta_file_no_vector mytok fs model tok a h l :
  pads_to_max_length tok ->
  high_fa_path a = Some h -> low_fa_path a = Some l ->
  fs h = Some [] \/ fs l = Some [] ->
  forall v, fst (fetch_steering_vector mytok fs model tok a) <> inr v.
Proof.
  intros Htok Hh Hl Hempty v H.
  destruct (fetch_run _ _ _ _ _ _ Htok H)
    as [h' [l' [hr [lr [st [sl [Hh' [Hl' [Ehr [Elr [H1 [H2 _]]]]]]]]]]]].
  rewrite Hh in Hh'. rewrite Hl in Hl'. injection Hh' as <-. injection Hl' as <-.
  destruct Hempty as [E|E]; [rewrite E in Ehr | rewrite E in Elr];
    [injection Ehr as <- | injection Elr as <-]; simpl in *; lia.
Qed.

(** Lines 52-54 and 109-112: when the high and the low FASTA files hold the
    same records, every returned component is zero. *)
Theorem same_fasta_content_zero_vector mytok fs model tok a h l v :
  high_fa_path a = Some h -> low_fa_path a = Some l -> fs h = fs l ->
  fst (fetch_steering_vector mytok fs model tok a) = inr v ->
  Forall (fun q => Qeq q 0) (data v).
Proof.
  intros Hh Hl Hsame H.
  pose proof (fetch_inr_fasta _ _ _ _ _ _ H) as Hfa.
  unfold fetch_steering_vector in H.
  rewrite (validate_fasta_run fs a h l Hfa Hh Hl), <- Hsame in H.
  destruct (fs h) as [hr|]; [|discriminate H].
  rewrite fst_bind in H. cbn [fst fsv_select ret] in H. cbv beta iota in H.
  rewrite fst_bind in H. cbn [fst fsv_select ret] in H. cbv beta iota in H.
  cbn [fst snd] in H. unfold steering_from_seqs in H. cbv zeta in H.
  apply bind_inr in H as [t1 [Ht1 H]]. apply bind_inr in H as [t2 [Ht2 H]].
  rewrite Ht1 in Ht2. injection Ht2 as <-.
  exact (steering_from_ids_self_zero _ _ _ _ H).
Qed.

(** Lines 45-54: only the sequences of the FASTA records are used, never
    their identifiers: two file systems whose files hold the same sequences
    give the same call, result and effects alike. *)
Theorem fetch_ignores_record_ids mytok fs fs' model tok a :
  (forall p, option_map (map rec_seq) (fs p) = option_map (map rec_seq) (fs' p)) ->
  fetch_steering_vector mytok fs model tok a = fetch_steering_vector mytok fs' model tok a.
Proof.
  intros E. unfold fetch_steering_vector, fsv_validate. cbv zeta.
  case_dt a;
  repeat match goal with H : py_lower (data_type a) = _ |- _ => rewrite H end;
  try reflexivity.
  simpl. destruct (high_fa_path a) as [h|]; [|reflexivity].
  destruct (low_fa_path a) as [l|]; [|reflexivity].
  simpl. pose proof (E h) as Eh. pose proof (E l) as El.
  destruct (fs h) as [hr|], (fs' h) as [hr'|]; simpl in Eh; try discriminate Eh; [|reflexivity].
  injection Eh as Eh.
  destruct (fs l) as [lr|], (fs' l) as [lr'|]; simpl in El; try discriminate El; [|reflexivity].
  injection El as El.
  simpl. rewrite Eh, El. reflexivity.
Qed.

(** Lines 33-112: [data_type] is only ever compared after [.lower()], so two
    spellings with the same lower case give the same call. *)
Theorem fetch_data_type_case_insensitive mytok fs model tok a d :
  py_lower (data_type a) = py_lower d ->
  fetch_steering_vector mytok fs model tok a =
  fetch_steering_vector mytok fs model tok
    (mk_args d (sequences a) (percent a) (min_seq_len a) (max_seq_len a)
             (lambda_ a) (high_fa_path a) (low_fa_path a)).
Proof.
  intros E.
  unfold fetch_steering_vector, fsv_validate, fsv_select, steering_from_seqs, steering_from_ids.
  cbv zeta. cbn [data_type sequences percent min_seq_len max_seq_len lambda_ high_fa_path low_fa_path].
  rewrite E. reflexivity.
Qed.

(** ** Witnesses of the further properties *)

Lemma load_data_lookup_witness :
  fst (load_data Toy.fs "dup.fa") = inr [("s1", "GGG"); ("s2", "CCC")] /\
  exists rs pre r post, Toy.fs "dup.fa" = Some rs /\ rs = pre ++ r :: post /\
    rec_id r = "s1" /\ rec_seq r = "GGG" /\ Forall (fun r' => rec_id r' <> "s1") post.
Proof.
  split; [vm_compute; reflexivity|].
  apply (proj1 (load_data_lookup Toy.fs "dup.fa" [("s1", "GGG"); ("s2", "CCC")] "s1" "GGG"
                  ltac:(vm_compute; reflexivity))).
  vm_compute. reflexivity.
Defined.

Lemma load_data_keys_witness :
  fst (load_data Toy.fs "dup.fa") = inr [("s1", "GGG"); ("s2", "CCC")] /\
  exists rs, Toy.fs "dup.fa" = Some rs /\ NoDup ["s1"; "s2"] /\
    (forall k, In k ["s1"; "s2"] <-> exists r, In r rs /\ rec_id r = k).
Proof.
  split; [vm_compute; reflexivity|].
  exact (load_data_keys Toy.fs "dup.fa" [("s1", "GGG"); ("s2", "CCC")]
           ltac:(vm_compute; reflexivity)).
Defined.


Lemma successful_call_effects_witness :
  exists v, fst (fetch_steering_vector Toy.mytok Toy.fs Toy.model Toy.tokenizer
                   (Toy.fasta_args "fasta" (Some "high.fa") (Some "low.fa"))) = inr v /\
  exists h l hr lr st sl,
    Some "high.fa" = Some h /\ Some "low.fa" = Some l /\ Toy.fs h = Some hr /\ Toy.fs l = Some lr /\
    snd (fetch_steering_vector Toy.mytok Toy.fs Toy.model Toy.tokenizer
           (Toy.fasta_args "fasta" (Some "high.fa") (Some "low.fa"))) =
      [ev_open h; ev_open l; ev_print "Computing steering vectors..."] ++
      map ev_forward st ++ map ev_forward sl /\
    batch_split (List.length hr) st /\ batch_split (List.length lr) sl.
Proof.
  pose (v := match fst (fetch_steering_vector Toy.mytok Toy.fs Toy.model Toy.tokenizer
                         (Toy.fasta_args "fasta" (Some "high.fa") (Some "low.fa"))) with
             | inr v => v | inl _ => mk_nd [] [] end).
  exists v. split; [vm_compute; reflexivity|].
  apply (successful_call_effects Toy.mytok Toy.fs Toy.model Toy.tokenizer
           (Toy.fasta_args "fasta" (Some "high.fa") (Some "low.fa")) v Toy_pads).
  vm_compute. reflexivity.
Defined.

Lemma empty_fasta_file_no_vector_witness :
  Toy.fs "empty.fa" = Some [] /\
  forall v, fst (fetch_steering_vector Toy.mytok Toy.fs Toy.model Toy.tokenizer
                   (Toy.fasta_args "fasta" (Some "empty.fa") (Some "low.fa"))) <> inr v.
Proof.
  split; [vm_compute; reflexivity|].
  exact (empty_fasta_file_no_vector Toy.mytok Toy.fs Toy.model Toy.tokenizer
           (Toy.fasta_args "fasta" (Some "empty.fa") (Some "low.fa")) "empty.fa" "low.fa"
           Toy_pads eq_refl eq_refl (or_introl eq_refl)).
Defined.

Lemma same_fasta_content_zero_vector_witness :
  exists v, fst (fetch_steering_vector Toy.mytok Toy.fs Toy.model Toy.tokenizer
                   (Toy.fasta_args "fasta" (Some "low.fa") (Some "low.fa"))) = inr v /\
            Forall (fun q => Qeq q 0) (data v).
Proof.
  exists (match fst (fetch_steering_vector Toy.mytok Toy.fs Toy.model Toy.tokenizer
                      (Toy.fasta_args "fasta" (Some "low.fa") (Some "low.fa"))) with
          | inr v => v | inl _ => mk_nd [] [] end).
  split; [vm_compute; reflexivity|].
  apply (same_fasta_content_zero_vector Toy.mytok Toy.fs Toy.model Toy.tokenizer
           (Toy.fasta_args "fasta" (Some "low.fa") (Some "low.fa")) "low.fa" "low.fa" _
           eq_refl eq_refl eq_refl).
  vm_compute. reflexivity.
Defined.

Lemma fetch_ignores_record_ids_witness :
  fetch_steering_vector Toy.mytok Toy.fs Toy.model Toy.tokenizer
    (Toy.fasta_args "fasta" (Some "high.fa") (Some "low.fa")) =
  fetch_steering_vector Toy.mytok Toy.fs_anon Toy.model Toy.tokenizer
    (Toy.fasta_args "fasta" (Some "high.fa") (Some "low.fa")).
Proof.
  apply fetch_ignores_record_ids.
  intros p. unfold Toy.fs_anon. destruct (Toy.fs p) as [rs|]; simpl; [|reflexivity].
  rewrite map_map. reflexivity.
Defined.

Lemma fetch_data_type_case_insensitive_witness :
  fetch_steering_vector Toy.mytok Toy.fs Toy.model Toy.tokenizer
    (Toy.fasta_args "FaStA" (Some "high.fa") (Some "low.fa")) =
  fetch_steering_vector Toy.mytok Toy.fs Toy.model Toy.tokenizer
    (Toy.fasta_args "fasta" (Some "high.fa") (Some "low.fa")).
Proof.
  exact (fetch_data_type_case_insensitive Toy.mytok Toy.fs Toy.model Toy.tokenizer
           (Toy.fasta_args "FaStA" (Some "high.fa") (Some "low.fa")) "fasta"
           ltac:(vm_compute; reflexivity)).
Defined.
